(** * DataHash_v2_core: a MEX wrapper around XXH64

  Shallow embedding of [src/DataHash_v2_core.cpp].  The file holds one
  class, [MexFunction], whose call operator takes the first MATLAB
  argument as a [TypedArray<uint8_t>], hashes its linear buffer with
  [XXH64] at seed 0 and stores the digest as a [uint64] scalar in the
  first output slot.

  Two collaborators are declared in headers that are not under [src/]:
  the xxHash library ([xxhash.h]) and the MATLAB Data API ([mex.hpp],
  [mexAdapter.hpp]).  The wrapper is embedded over an arbitrary hash
  function (a Section variable); the module [XXHash] gives the XXH64
  algorithm itself for the known-answer claims, and the module
  [XXHashRun] runs its loops as loops, in interaction trees, where a
  loop that never stops or an event raised on the way would show. *)

From Stdlib Require Import ZArith Lia.
From Stdlib.Strings Require Import Byte.
From Stdlib.Strings Require String.
Import String.StringSyntax.
From stdpp Require Import base list.
From ITree Require Import ITree ITreeFacts.

Local Open Scope Z_scope.

(** ** 64-bit unsigned arithmetic, wrap-around written out *)

Module U64.

Definition modulus : Z := 2 ^ 64.

Definition wrap (x : Z) : Z := x mod modulus.

Definition add (a b : Z) : Z := wrap (a + b).
Definition sub (a b : Z) : Z := wrap (a - b).
Definition mul (a b : Z) : Z := wrap (a * b).
Definition xor (a b : Z) : Z := Z.lxor a b.
Definition shr (a n : Z) : Z := Z.shiftr a n.
Definition shl (a n : Z) : Z := wrap (Z.shiftl a n).

(** [XXH_rotl64(x, r)] is [(x << r) | (x >> (64 - r))]. *)
Definition rotl (x r : Z) : Z := Z.lor (shl x r) (shr x (64 - r)).

Definition in_range (x : Z) : Prop := 0 <= x < modulus.

End U64.

(** ** The XXH64 algorithm *)

Module XXHash.

Definition XXH_PRIME64_1 : Z := 0x9E3779B185EBCA87.
Definition XXH_PRIME64_2 : Z := 0xC2B2AE3D27D4EB4F.
Definition XXH_PRIME64_3 : Z := 0x165667B19E3779F9.
Definition XXH_PRIME64_4 : Z := 0x85EBCA77C2B2AE63.
Definition XXH_PRIME64_5 : Z := 0x27D4EB2F165667C5.

Definition byte_val (b : byte) : Z := Z.of_N (Byte.to_N b).

(** Little-endian read of the first [n] bytes at [p]. *)
Fixpoint XXH_readLE (n : nat) (p : list byte) : Z :=
  match n, p with
  | S n', b :: p' => Z.lor (byte_val b) (Z.shiftl (XXH_readLE n' p') 8)
  | _, _ => 0
  end.

Definition XXH_readLE64 (p : list byte) : Z := XXH_readLE 8 p.
Definition XXH_readLE32 (p : list byte) : Z := XXH_readLE 4 p.

Definition XXH64_round (acc input : Z) : Z :=
  let acc := U64.add acc (U64.mul input XXH_PRIME64_2) in
  let acc := U64.rotl acc 31 in
  U64.mul acc XXH_PRIME64_1.

Definition XXH64_mergeRound (acc val : Z) : Z :=
  let val := XXH64_round 0 val in
  let acc := U64.xor acc val in
  U64.add (U64.mul acc XXH_PRIME64_1) XXH_PRIME64_4.

Definition XXH64_avalanche (hash : Z) : Z :=
  let hash := U64.xor hash (U64.shr hash 33) in
  let hash := U64.mul hash XXH_PRIME64_2 in
  let hash := U64.xor hash (U64.shr hash 29) in
  let hash := U64.mul hash XXH_PRIME64_3 in
  U64.xor hash (U64.shr hash 32).

(** The four accumulators of the stripe loop. *)
Record acc4 : Type := Acc4 { v1 : Z; v2 : Z; v3 : Z; v4 : Z }.

(** One 32-byte stripe: each lane consumes eight bytes. *)
Definition XXH64_stripe (a : acc4) (p : list byte) : acc4 :=
  {| v1 := XXH64_round (v1 a) (XXH_readLE64 p);
     v2 := XXH64_round (v2 a) (XXH_readLE64 (drop 8 p));
     v3 := XXH64_round (v3 a) (XXH_readLE64 (drop 16 p));
     v4 := XXH64_round (v4 a) (XXH_readLE64 (drop 24 p)) |}.

(** [do { ... } while (input <= limit)] with [limit = bEnd - 32]: the
    body runs once per whole stripe, [n] times in all; the result is
    the accumulators and the input pointer after the loop. *)
Fixpoint XXH64_stripes (n : nat) (a : acc4) (p : list byte) : acc4 * list byte :=
  match n with
  | O => (a, p)
  | S n' => XXH64_stripes n' (XXH64_stripe a p) (drop 32 p)
  end.

Definition XXH64_converge (a : acc4) : Z :=
  let h64 := U64.add (U64.add (U64.add (U64.rotl (v1 a) 1) (U64.rotl (v2 a) 7))
                              (U64.rotl (v3 a) 12)) (U64.rotl (v4 a) 18) in
  let h64 := XXH64_mergeRound h64 (v1 a) in
  let h64 := XXH64_mergeRound h64 (v2 a) in
  let h64 := XXH64_mergeRound h64 (v3 a) in
  XXH64_mergeRound h64 (v4 a).

(** [while (len >= 8)] of [XXH64_finalize]: [n] eight-byte lanes. *)
Fixpoint XXH64_finalize_lanes (n : nat) (hash : Z) (p : list byte) : Z * list byte :=
  match n with
  | O => (hash, p)
  | S n' =>
      let k1 := XXH64_round 0 (XXH_readLE64 p) in
      let hash := U64.xor hash k1 in
      let hash := U64.add (U64.mul (U64.rotl hash 27) XXH_PRIME64_1) XXH_PRIME64_4 in
      XXH64_finalize_lanes n' hash (drop 8 p)
  end.

(** [while (len > 0)] of [XXH64_finalize]: the trailing bytes. *)
Fixpoint XXH64_finalize_bytes (hash : Z) (p : list byte) : Z :=
  match p with
  | [] => hash
  | b :: p' =>
      let hash := U64.xor hash (U64.mul (byte_val b) XXH_PRIME64_5) in
      let hash := U64.mul (U64.rotl hash 11) XXH_PRIME64_1 in
      XXH64_finalize_bytes hash p'
  end.

(** [p] holds the [len & 31] bytes left after the stripes. *)
Definition XXH64_finalize (hash : Z) (p : list byte) : Z :=
  let len := length p in
  let '(hash, p) := XXH64_finalize_lanes (len / 8)%nat hash p in
  let len := (len mod 8)%nat in
  let '(hash, p) :=
    if (4 <=? len)%nat
    then (U64.add (U64.mul (U64.rotl (U64.xor hash (U64.mul (XXH_readLE32 p) XXH_PRIME64_1)) 23)
                           XXH_PRIME64_2) XXH_PRIME64_3,
          drop 4 p)
    else (hash, p) in
  XXH64_avalanche (XXH64_finalize_bytes hash p).

(** Modelled from the spec: the hash library's [XXH64(pointer, length,
    seed) -> uint64] (declared in [xxhash.h], which is not under
    [src/]), "the XXH64 variant of the xxHash family".  The pair
    (pointer, length) is the byte list [input]. *)
Definition XXH64 (input : list byte) (seed : Z) : Z :=
  let len := length input in
  let '(h64, p) :=
    if (32 <=? len)%nat
    then
      let a := {| v1 := U64.add (U64.add seed XXH_PRIME64_1) XXH_PRIME64_2;
                  v2 := U64.add seed XXH_PRIME64_2;
                  v3 := U64.add seed 0;
                  v4 := U64.sub seed XXH_PRIME64_1 |} in
      let '(a, p) := XXH64_stripes (len / 32)%nat a input in
      (XXH64_converge a, p)
    else (U64.add seed XXH_PRIME64_5, input) in
  let h64 := U64.add h64 (Z.of_nat len) in
  XXH64_finalize h64 p.

End XXHash.

(** ** The loops of XXH64, run as loops *)

(** In [XXHash] every loop is a recursion over an iteration count worked
    out beforehand.  Here each loop is an [ITree.iter] that tests its own
    condition on every turn, as the C loops do, and may in principle go
    on forever; the trees are over an arbitrary signature [E] of host
    events (console, files, waiting), none of which the algorithm
    raises. *)

Module XXHashRun.
Import XXHash.

Section Run.

Variable E : Type -> Type.

(** [do { v1 = round(v1, read64(input)); input += 8; ... v4 ... }
    while (input <= limit)], [limit = bEnd - 32]: the body runs, then
    the loop goes on while a whole stripe is left. *)
Definition XXH64_stripe_loop (a : acc4) (p : list byte) : itree E (acc4 * list byte) :=
  ITree.iter
    (fun '(a, p) =>
       let a := XXH64_stripe a p in
       let p := drop 32 p in
       if (32 <=? length p)%nat then Ret (inl (a, p)) else Ret (inr (a, p)))
    (a, p).

(** [while (len >= 8) { ...; ptr += 8; len -= 8; }]; [len] is the number
    of bytes left at [ptr], the length of [p]. *)
Definition XXH64_lane_loop (hash : Z) (p : list byte) : itree E (Z * list byte) :=
  ITree.iter
    (fun '(hash, p) =>
       if (8 <=? length p)%nat
       then
         let k1 := XXH64_round 0 (XXH_readLE64 p) in
         let hash := U64.xor hash k1 in
         let hash := U64.add (U64.mul (U64.rotl hash 27) XXH_PRIME64_1) XXH_PRIME64_4 in
         Ret (inl (hash, drop 8 p))
       else Ret (inr (hash, p)))
    (hash, p).

(** [while (len > 0) { hash ^= ptr[0] * PRIME64_5; ptr++; ...; --len; }]. *)
Definition XXH64_byte_loop (hash : Z) (p : list byte) : itree E Z :=
  ITree.iter
    (fun '(hash, p) =>
       match p with
       | b :: p' =>
           let hash := U64.xor hash (U64.mul (byte_val b) XXH_PRIME64_5) in
           let hash := U64.mul (U64.rotl hash 11) XXH_PRIME64_1 in
           Ret (inl (hash, p'))
       | [] => Ret (inr hash)
       end)
    (hash, p).

(** [XXH64_finalize]: the lane loop, the four-byte step if four bytes are
    left, the byte loop, the avalanche. *)
Definition XXH64_finalize_run (hash : Z) (p : list byte) : itree E Z :=
  ITree.bind (XXH64_lane_loop hash p) (fun '(hash, p) =>
  let '(hash, p) :=
    if (4 <=? length p)%nat
    then (U64.add (U64.mul (U64.rotl (U64.xor hash (U64.mul (XXH_readLE32 p) XXH_PRIME64_1)) 23)
                           XXH_PRIME64_2) XXH_PRIME64_3,
          drop 4 p)
    else (hash, p) in
  ITree.bind (XXH64_byte_loop hash p) (fun hash =>
  Ret (XXH64_avalanche hash))).

(** Modelled from the spec: the hash library's [XXH64(pointer, length,
    seed)] ([xxhash.h], not under [src/]), the same algorithm as
    [XXHash.XXH64], as a computation that has to reach its end. *)
Definition XXH64_run (input : list byte) (seed : Z) : itree E Z :=
  let len := length input in
  ITree.bind
    (if (32 <=? len)%nat
     then
       let a := {| v1 := U64.add (U64.add seed XXH_PRIME64_1) XXH_PRIME64_2;
                   v2 := U64.add seed XXH_PRIME64_2;
                   v3 := U64.add seed 0;
                   v4 := U64.sub seed XXH_PRIME64_1 |} in
       ITree.bind (XXH64_stripe_loop a input) (fun '(a, p) =>
       Ret (XXH64_converge a, p))
     else Ret (U64.add seed XXH_PRIME64_5, input))
    (fun '(h64, p) =>
       let h64 := U64.add h64 (Z.of_nat len) in
       XXH64_finalize_run h64 p).

End Run.

End XXHashRun.

(** ** The MATLAB Data API, as far as the wrapper uses it *)

Module matlab_data.

(** Modelled from the spec: the element types of [matlab::data::Array]
    (the enumeration [ArrayType] of [mex.hpp], not under [src/]); the
    caller may hand over an array of a "wrong element width/type". *)
Inductive ArrayType : Set :=
| LOGICAL | CHAR | MATLAB_STRING | DOUBLE | SINGLE
| INT8 | UINT8 | INT16 | UINT16 | INT32 | UINT32 | INT64 | UINT64
| COMPLEX_DOUBLE | COMPLEX_SINGLE
| COMPLEX_INT8 | COMPLEX_UINT8 | COMPLEX_INT16 | COMPLEX_UINT16
| COMPLEX_INT32 | COMPLEX_UINT32 | COMPLEX_INT64 | COMPLEX_UINT64
| CELL | STRUCT | OBJECT | VALUE_OBJECT | HANDLE_OBJECT_REF | ENUM
| SPARSE_LOGICAL | SPARSE_DOUBLE | SPARSE_COMPLEX_DOUBLE | UNKNOWN.

(** Modelled from the spec: the linear (column-major) element buffer of
    an array of a given type ([mex.hpp], not under [src/]): "a finite
    ordered sequence of 8-bit unsigned values" for [uint8], "64-bit
    unsigned integer" values for [uint64]; the wrapper never looks inside
    an array of any other type. *)
Definition elements (t : ArrayType) : Type :=
  match t with
  | UINT8 => list byte
  | UINT64 => list Z
  | _ => unit
  end.

(** [matlab::data::Array]: a type tag, the dimensions and the buffer. *)
Record Array : Type := mkArray {
  getType : ArrayType;
  getDimensions : list nat;
  buffer : elements getType
}.

(** [TypedArray<uint8_t>]. *)
Record TypedArray_uint8 : Type := mkTypedArray_uint8 {
  dims8 : list nat;
  data8 : list byte
}.

Definition numel (dims : list nat) : nat := foldr Nat.mul 1%nat dims.

(** [TypedArray<T>::getNumberOfElements()], "numel(A)" in the source: the
    product of the dimensions. *)
Definition getNumberOfElements (a : TypedArray_uint8) : nat := numel (dims8 a).

(** An array holds as many elements as its dimensions say. *)
Definition well_formed (dims : list nat) (data : list byte) : Prop :=
  length data = numel dims.

(** What a call can raise: the one error kind of the spec, and the
    adapter's report of a slot that is not there. *)
Inductive Exception : Set :=
| InvalidInput
| IndexOutOfRange.

Definition result (A : Type) : Type := Exception + A.

(** A raised exception skips the rest of the body. *)
#[global] Instance result_bind : MBind result := fun A B k m =>
  match m with
  | inl e => inl e
  | inr x => k x
  end.

(** Modelled from the spec: the converting constructor
    [TypedArray<uint8_t>(Array&&)] of the Data API ([mex.hpp], not under
    [src/]); it "fails with InvalidInput if the input is not
    representable as a byte sequence (e.g., wrong element width/type
    from the caller)". *)
Definition TypedArray_uint8_of (a : Array) : result TypedArray_uint8 :=
  match a with
  | mkArray UINT8 dims buf => inr (mkTypedArray_uint8 dims buf)
  | _ => inl InvalidInput
  end.

(** Modelled from the spec: [TypedArray<T>::release()] ([mex.hpp], not
    under [src/]).  It hands the buffer out and leaves the array without
    elements, which is why the source reads the element count first
    ("must call before release"); the bytes handed out are the caller's,
    which "the hasher only reads". *)
Definition release (a : TypedArray_uint8) : list byte * TypedArray_uint8 :=
  (data8 a, mkTypedArray_uint8 [0; 0]%nat []).

(** Modelled from the spec: [ArrayFactory::createScalar<uint64_t>(v)]
    ([mex.hpp], not under [src/]): "one scalar
    64-bit-unsigned-integer return value", a 1-by-1 [uint64] array. *)
Definition createScalar_uint64 (v : Z) : Array :=
  mkArray UINT64 [1; 1]%nat [v].

End matlab_data.

(** ** The argument lists of a MEX call *)

Module matlab_mex.
Import matlab_data.

(** [matlab::mex::ArgumentList]: the slots of the call, in order. *)
Definition ArgumentList : Type := list Array.

(** Modelled from the spec: [ArgumentList::operator[]] of the MEX adapter
    ([mexAdapter.hpp], not under [src/]), read.  The host "supplies one
    positional byte-array argument and expects one scalar" back, so slot
    0 exists on both lists in every call the spec describes; an index
    past the end is reported as [IndexOutOfRange]. *)
Definition at_index (args : ArgumentList) (i : nat) : result Array :=
  match args !! i with
  | Some a => inr a
  | None => inl IndexOutOfRange
  end.

(** Modelled from the spec: the same operator, written: [args[i] = a]. *)
Definition assign (args : ArgumentList) (i : nat) (a : Array) : result ArgumentList :=
  if decide (i < length args)%nat then inr (<[i := a]> args) else inl IndexOutOfRange.

End matlab_mex.

(** ** The wrapper: [MexFunction::operator()] *)

Module MexFunction.
Import matlab_data matlab_mex.

Section Call.

(** The hash library's entry point; [XXH64 input seed] stands for
    [XXH64(p, len, seed)] where [input] is the [len] bytes at [p]. *)
Variable XXH64 : list byte -> Z -> Z.

(** [void operator()(ArgumentList outputs, ArgumentList inputs)], line by
    line; the result is the output list after the call, or what was
    raised.  [XXH64(pbytestream, nbytes, seed)] reads the [nbytes] bytes
    at the pointer. *)
Definition operator_call (outputs inputs : ArgumentList) : result ArgumentList :=
  let seed := 0 in
  arg0 ← at_index inputs 0;
  bytestream ← TypedArray_uint8_of arg0;
  let nbytes := getNumberOfElements bytestream in
  let '(bytestream_bf, bytestream) := release bytestream in
  let pbytestream := bytestream_bf in
  let hash := XXH64 (take nbytes pbytestream) seed in
  let mathash := createScalar_uint64 hash in
  assign outputs 0 mathash.

End Call.

(** What MATLAB receives as [hash = DataHash_v2_core(data)]: the first
    output slot of a call that did not raise. *)
Definition returned (r : result ArgumentList) : option Array :=
  match r with
  | inr outs => outs !! 0%nat
  | inl _ => None
  end.

End MexFunction.

(** The extension as built: the wrapper linked against xxHash. *)
Definition DataHash_v2_core : matlab_mex.ArgumentList -> matlab_mex.ArgumentList ->
                            matlab_data.result matlab_mex.ArgumentList :=
MexFunction.operator_call XXHash.XXH64.

(** ** The wrapper as a computation *)

Module MexFunctionRun.
Import matlab_data matlab_mex.

Section Call.

(** The events the host offers, and a hash function that is a
    computation over them: it may raise events and need not stop. *)
Variable E : Type -> Type.
Variable XXH64 : list byte -> Z -> itree E Z.

(** [void operator()(ArgumentList outputs, ArgumentList inputs)] again,
    line by line, as a tree: an exception ends the call at once, the
    hash is waited for, and the body itself raises no event. *)
Definition operator_call_run (outputs inputs : ArgumentList)
  : itree E (result ArgumentList) :=
  let seed := 0 in
  match at_index inputs 0 with
  | inl e => Ret (inl e)
  | inr arg0 =>
      match TypedArray_uint8_of arg0 with
      | inl e => Ret (inl e)
      | inr bytestream =>
          let nbytes := getNumberOfElements bytestream in
          let '(bytestream_bf, bytestream) := release bytestream in
          let pbytestream := bytestream_bf in
          ITree.bind (XXH64 (take nbytes pbytestream) seed) (fun hash =>
          let mathash := createScalar_uint64 hash in
          Ret (assign outputs 0 mathash))
      end
  end.

End Call.

End MexFunctionRun.

(** The extension as built, as a computation over the host events [E]. *)
Definition DataHash_v2_core_run (E : Type -> Type)
  : matlab_mex.ArgumentList -> matlab_mex.ArgumentList ->
    itree E (matlab_data.result matlab_mex.ArgumentList) :=
MexFunctionRun.operator_call_run E (XXHashRun.XXH64_run E).

Import matlab_data matlab_mex MexFunction.

(** The bytes of the literal string [abc]. *)
Definition abc : list byte := [x61; x62; x63].

(** * Properties *)

(** ** Ranges of the 64-bit operations *)

Lemma U64_wrap_in_range (x : Z) : U64.in_range (U64.wrap x).
Proof.
  unfold U64.in_range, U64.wrap, U64.modulus.
  apply Z.mod_pos_bound. reflexivity.
Qed.

Lemma U64_log2_lt (a : Z) : U64.in_range a -> Z.log2 a < 64.
Proof.
  unfold U64.in_range, U64.modulus. intros [Hlo Hhi].
  destruct (Z.eq_dec a 0) as [-> | Hne]; [reflexivity |].
  apply Z.log2_lt_pow2; lia.
Qed.

Lemma U64_xor_in_range (a b : Z) :
  U64.in_range a -> U64.in_range b -> U64.in_range (U64.xor a b).
Proof.
  intros Ha Hb.
  pose proof (U64_log2_lt a Ha) as La. pose proof (U64_log2_lt b Hb) as Lb.
  destruct Ha as [Ha _], Hb as [Hb _].
  unfold U64.in_range, U64.xor, U64.modulus.
  assert (Hnn : 0 <= Z.lxor a b) by (apply Z.lxor_nonneg; tauto).
  split; [exact Hnn |].
  destruct (Z.eq_dec (Z.lxor a b) 0) as [-> | Hne]; [reflexivity |].
  apply Z.log2_lt_pow2; [lia |].
  pose proof (Z.log2_lxor a b Ha Hb). lia.
Qed.

Lemma U64_shr_in_range (a n : Z) :
  U64.in_range a -> 0 <= n -> U64.in_range (U64.shr a n).
Proof.
  unfold U64.in_range, U64.shr. intros [Hlo Hhi] Hn.
  rewrite Z.shiftr_div_pow2 by exact Hn.
  assert (0 < 2 ^ n) by (apply Z.pow_pos_nonneg; lia).
  split.
  - apply Z.div_pos; lia.
  - apply Z.le_lt_trans with a; [| exact Hhi].
    apply Z.div_le_upper_bound; nia.
Qed.

(** The last step of [XXH64_avalanche] mixes a wrapped product with its
    own high half, so the digest fits 64 bits whatever went in. *)
Lemma XXH64_avalanche_in_range (h : Z) : U64.in_range (XXHash.XXH64_avalanche h).
Proof.
  unfold XXHash.XXH64_avalanche. cbv zeta.
  apply U64_xor_in_range.
  - apply U64_wrap_in_range.
  - apply U64_shr_in_range; [apply U64_wrap_in_range | lia].
Qed.

Lemma XXH64_finalize_in_range (h : Z) (p : list byte) :
  U64.in_range (XXHash.XXH64_finalize h p).
Proof.
  unfold XXHash.XXH64_finalize. cbv zeta.
  destruct (XXHash.XXH64_finalize_lanes _ h p) as [h1 p1].
  destruct (4 <=? _)%nat; apply XXH64_avalanche_in_range.
Qed.

Lemma XXH64_in_range (input : list byte) (seed : Z) :
  U64.in_range (XXHash.XXH64 input seed).
Proof.
  unfold XXHash.XXH64. cbv zeta.
  destruct (32 <=? length input)%nat.
  - destruct (XXHash.XXH64_stripes _ _ input) as [a p].
    apply XXH64_finalize_in_range.
  - apply XXH64_finalize_in_range.
Qed.

(** ** The loop counts of the algorithm agree with the loop conditions *)

Lemma XXH64_stripes_rest (n : nat) (a : XXHash.acc4) (p : list byte) :
  snd (XXHash.XXH64_stripes n a p) = drop (32 * n) p.
Proof.
  revert a p. induction n as [| n IH]; intros a p; simpl.
  - symmetry. apply drop_0.
  - rewrite IH, drop_drop. f_equal. lia.
Qed.

(** After [len / 32] stripes fewer than 32 bytes are left, [len & 31] of
    them: the stripe loop stops exactly where [input <= limit] fails. *)
Lemma XXH64_stripes_leave (a : XXHash.acc4) (p : list byte) :
  length (snd (XXHash.XXH64_stripes (length p / 32) a p)) = (length p mod 32)%nat.
Proof.
  rewrite XXH64_stripes_rest, length_drop.
  pose proof (Nat.div_mod_eq (length p) 32). lia.
Qed.

Lemma XXH64_finalize_lanes_rest (n : nat) (h : Z) (p : list byte) :
  snd (XXHash.XXH64_finalize_lanes n h p) = drop (8 * n) p.
Proof.
  revert h p. induction n as [| n IH]; intros h p; simpl.
  - symmetry. apply drop_0.
  - rewrite IH, drop_drop. f_equal. lia.
Qed.

(** ** What it means for a computation to be a plain return *)

(** [t ≈ Ret v] leaves room for finitely many silent steps and nothing
    else: a computation that raises an event is not a plain return, and
    neither is one that never stops. *)
Remark event_is_not_a_return (E : Type -> Type) (R X : Type)
    (e : E X) (k : X -> itree E R) (v : R) :
  ~ (Vis e k ≈ Ret v).
Proof. intros H. apply eqit_inv in H. exact H. Qed.

Remark endless_is_not_a_return (E : Type -> Type) (R : Type) (v : R) :
  ~ (@ITree.spin E R ≈ Ret v).
Proof. intros H. exact (eutt_spin_Ret_abs v H). Qed.

(** ** The loops stop, at the counts the recursive definitions use *)

(** The stripe loop, entered with [S n] whole stripes ahead, leaves after
    [S n] turns with the accumulators and the rest of the input that
    [XXH64_stripes] computes. *)
Lemma XXH64_stripe_loop_halts (E : Type -> Type) (n : nat) :
  forall (a : XXHash.acc4) (p : list byte),
    (length p / 32 = S n)%nat ->
    XXHashRun.XXH64_stripe_loop E a p ≈ Ret (XXHash.XXH64_stripes (S n) a p).
Proof.
  induction n as [| n IH]; intros a p Hn; unfold XXHashRun.XXH64_stripe_loop.
  - rewrite unfold_iter. cbn zeta beta iota.
    assert (Hlt : (length (drop 32 p) < 32)%nat).
    { rewrite length_drop. pose proof (Nat.div_mod_eq (length p) 32).
      pose proof (Nat.mod_upper_bound (length p) 32). lia. }
    destruct (Nat.leb_spec 32 (length (drop 32 p))) as [Hle | _]; [lia |].
    rewrite bind_ret_l. reflexivity.
  - rewrite unfold_iter. cbn zeta beta iota.
    assert (Hd : (length (drop 32 p) / 32 = S n)%nat).
    { rewrite length_drop.
      pose proof (Nat.div_mod_eq (length p) 32).
      pose proof (Nat.mod_upper_bound (length p) 32).
      symmetry. apply Nat.div_unique with (length p mod 32)%nat; lia. }
    destruct (Nat.leb_spec 32 (length (drop 32 p))) as [_ | Hlt].
    + rewrite bind_ret_l, tau_eutt.
      fold (XXHashRun.XXH64_stripe_loop E (XXHash.XXH64_stripe a p) (drop 32 p)).
      rewrite (IH _ _ Hd). reflexivity.
    + apply Nat.div_small in Hlt. lia.
Qed.

(** The lane loop stops after [length p / 8] turns. *)
Lemma XXH64_lane_loop_halts (E : Type -> Type) (n : nat) :
  forall (hash : Z) (p : list byte),
    (length p / 8 = n)%nat ->
    XXHashRun.XXH64_lane_loop E hash p ≈ Ret (XXHash.XXH64_finalize_lanes n hash p).
Proof.
  induction n as [| n IH]; intros hash p Hn; unfold XXHashRun.XXH64_lane_loop.
  - rewrite unfold_iter. cbn zeta beta iota.
    destruct (Nat.leb_spec 8 (length p)) as [Hle | _].
    + pose proof (Nat.div_mod_eq (length p) 8).
      pose proof (Nat.mod_upper_bound (length p) 8). lia.
    + rewrite bind_ret_l. reflexivity.
  - rewrite unfold_iter. cbn zeta beta iota.
    destruct (Nat.leb_spec 8 (length p)) as [Hle | Hlt].
    + rewrite bind_ret_l, tau_eutt.
      match goal with
      | |- ITree.iter _ (?h, _) ≈ _ => fold (XXHashRun.XXH64_lane_loop E h (drop 8 p))
      end.
      rewrite IH; [reflexivity |].
      rewrite length_drop.
      pose proof (Nat.div_mod_eq (length p) 8).
      pose proof (Nat.mod_upper_bound (length p) 8).
      symmetry. apply Nat.div_unique with (length p mod 8)%nat; lia.
    + apply Nat.div_small in Hlt. lia.
Qed.

(** The byte loop stops when the bytes are used up. *)
Lemma XXH64_byte_loop_halts (E : Type -> Type) (p : list byte) :
  forall hash : Z,
    XXHashRun.XXH64_byte_loop E hash p ≈ Ret (XXHash.XXH64_finalize_bytes hash p).
Proof.
  induction p as [| b p IH]; intros hash; unfold XXHashRun.XXH64_byte_loop.
  - rewrite unfold_iter. cbn zeta beta iota. rewrite bind_ret_l. reflexivity.
  - rewrite unfold_iter. cbn zeta beta iota. rewrite bind_ret_l, tau_eutt.
    match goal with
    | |- ITree.iter _ (?h, _) ≈ _ => fold (XXHashRun.XXH64_byte_loop E h p)
    end.
    rewrite IH. reflexivity.
Qed.

(** After the lanes fewer than 8 bytes are left, [len mod 8] of them. *)
Lemma XXH64_finalize_lanes_leave (h : Z) (p : list byte) :
  length (snd (XXHash.XXH64_finalize_lanes (length p / 8) h p)) = (length p mod 8)%nat.
Proof.
  rewrite XXH64_finalize_lanes_rest, length_drop.
  pose proof (Nat.div_mod_eq (length p) 8). lia.
Qed.

(** The tail of the algorithm stops, with the value of [XXH64_finalize]. *)
Lemma XXH64_finalize_run_halts (E : Type -> Type) (hash : Z) (p : list byte) :
  XXHashRun.XXH64_finalize_run E hash p ≈ Ret (XXHash.XXH64_finalize hash p).
Proof.
  unfold XXHashRun.XXH64_finalize_run, XXHash.XXH64_finalize. cbv zeta.
  rewrite (XXH64_lane_loop_halts E (length p / 8) hash p eq_refl), bind_ret_l.
  pose proof (XXH64_finalize_lanes_leave hash p) as Hlen.
  destruct (XXHash.XXH64_finalize_lanes (length p / 8) hash p) as [h1 p1].
  cbn [snd] in Hlen. rewrite Hlen.
  destruct (4 <=? length p mod 8)%nat; cbv beta iota;
    rewrite XXH64_byte_loop_halts, bind_ret_l; reflexivity.
Qed.

(** The hash function stops on every input and seed, raises no event, and
    returns the value of [XXHash.XXH64]. *)
Lemma XXH64_run_halts (E : Type -> Type) (input : list byte) (seed : Z) :
  XXHashRun.XXH64_run E input seed ≈ Ret (XXHash.XXH64 input seed).
Proof.
  unfold XXHashRun.XXH64_run, XXHash.XXH64. cbv zeta.
  destruct (Nat.leb_spec 32 (length input)) as [Hle | Hlt].
  - destruct (length input / 32)%nat as [| n] eqn:Hn.
    + pose proof (Nat.div_mod_eq (length input) 32).
      pose proof (Nat.mod_upper_bound (length input) 32). lia.
    + rewrite bind_bind, (XXH64_stripe_loop_halts E n _ input Hn), bind_ret_l.
      destruct (XXHash.XXH64_stripes (S n) _ input) as [a p].
      rewrite bind_ret_l. apply XXH64_finalize_run_halts.
  - rewrite bind_ret_l. apply XXH64_finalize_run_halts.
Qed.

(** The call as a computation, on any argument lists: it stops, raises
    no event, and ends with the result of [DataHash_v2_core]. *)
Lemma DataHash_v2_core_run_halts (E : Type -> Type) (outs inputs : ArgumentList) :
  DataHash_v2_core_run E outs inputs ≈ Ret (DataHash_v2_core outs inputs).
Proof.
  unfold DataHash_v2_core_run, MexFunctionRun.operator_call_run,
    DataHash_v2_core, operator_call. cbv zeta.
  destruct (at_index inputs 0) as [e | arg0]; [reflexivity |].
  cbn [mbind result_bind].
  destruct (TypedArray_uint8_of arg0) as [e | bytestream]; [reflexivity |].
  cbn [mbind result_bind release].
  rewrite XXH64_run_halts, bind_ret_l. reflexivity.
Qed.

(** ** The wrapper on a [uint8] argument *)

(** Every call with a [uint8] array in the first slot and an output slot
    to fill runs to the end: it hashes the first [numel] bytes of the
    buffer at seed 0 and puts the scalar in [outputs[0]]. *)
Lemma operator_call_uint8 (XXH64 : list byte -> Z -> Z)
    (o : Array) (outs : ArgumentList) (dims : list nat) (data : list byte)
    (rest : ArgumentList) :
  operator_call XXH64 (o :: outs) (mkArray UINT8 dims data :: rest)
  = inr (createScalar_uint64 (XXH64 (take (numel dims) data) 0) :: outs).
Proof. reflexivity. Qed.

Lemma take_well_formed (dims : list nat) (data : list byte) :
  well_formed dims data -> take (numel dims) data = data.
Proof. unfold well_formed. intros H. apply take_ge. lia. Qed.

Lemma operator_call_not_uint8 (XXH64 : list byte -> Z -> Z)
    (outs : ArgumentList) (a : Array) (rest : ArgumentList) :
  getType a <> UINT8 -> operator_call XXH64 outs (a :: rest) = inl InvalidInput.
Proof.
  destruct a as [ty dims buf]. simpl. intros Hty.
  destruct ty; solve [reflexivity | contradiction].
Qed.

(** ** Sanity checks of the algorithm against published digests *)

Example XXH64_one_byte : XXHash.XXH64 [x61] 0 = 0xD24EC4F1A98C6E5B.
Proof. vm_compute. reflexivity. Qed.

(** A 39-byte input, which runs the stripe loop, the convergence and
    every part of the tail. *)
Example XXH64_stripe_input :
  XXHash.XXH64
    (String.list_byte_of_string "Nobody inspects the spammish repetition") 0
  = 0xFBCEA83C8A378BF1.
Proof. vm_compute. reflexivity. Qed.

Example XXH64_seeded :
  XXHash.XXH64 (String.list_byte_of_string "xxhash") 20141025
  = 0xB559B98D844E0635.
Proof. vm_compute. reflexivity. Qed.

(** ** The claims *)

(** C1: for every byte sequence [data] (a well-formed [uint8] array of
    any shape), the wrapper returns [XXH64(data, 0)]: whatever hash
    function the library provides, the digest put in [outputs[0]] is that
    function applied to exactly the bytes of the array, at seed 0. *)
Theorem wrapper_returns_XXH64_seed0 (XXH64 : list byte -> Z -> Z)
    (o : Array) (outs : ArgumentList) (dims : list nat) (data : list byte)
    (rest : ArgumentList) :
  well_formed dims data ->
  operator_call XXH64 (o :: outs) (mkArray UINT8 dims data :: rest)
  = inr (createScalar_uint64 (XXH64 data 0) :: outs).
Proof.
  intros Hwf. rewrite operator_call_uint8.
  rewrite (take_well_formed dims data Hwf). reflexivity.
Qed.

Lemma wrapper_returns_XXH64_seed0_witness :
  DataHash_v2_core [mkArray DOUBLE [0; 0]%nat tt]
                   [mkArray UINT8 [1; 3]%nat abc]
  = inr [createScalar_uint64 (XXHash.XXH64 abc 0)].
Proof.
  apply (wrapper_returns_XXH64_seed0 XXHash.XXH64
           (mkArray DOUBLE [0; 0]%nat tt) [] [1; 3]%nat abc []).
  reflexivity.
Defined.

(** C2: the empty byte sequence is a valid input: XXH64 of no bytes at
    seed 0 is 0xEF46DB3751D8E999, and a call on an empty [uint8] array
    (of any shape) succeeds and returns that value. *)
Theorem empty_input_golden :
  XXHash.XXH64 [] 0 = 0xEF46DB3751D8E999 /\
  forall (o : Array) (outs : ArgumentList) (dims : list nat) (rest : ArgumentList),
    DataHash_v2_core (o :: outs) (mkArray UINT8 dims [] :: rest)
    = inr (createScalar_uint64 0xEF46DB3751D8E999 :: outs).
Proof.
  assert (H : XXHash.XXH64 [] 0 = 0xEF46DB3751D8E999) by (vm_compute; reflexivity).
  split; [exact H |].
  intros o outs dims rest. unfold DataHash_v2_core.
  rewrite operator_call_uint8, take_nil, H. reflexivity.
Qed.

(** C3: hashing the three bytes 0x61 0x62 0x63 at seed 0 gives
    0x44BC2CF5AD770999, and so does a call on a [uint8] array of any
    shape holding them. *)
Theorem abc_known_answer :
  XXHash.XXH64 [x61; x62; x63] 0 = 0x44BC2CF5AD770999 /\
  forall (o : Array) (outs : ArgumentList) (dims : list nat) (rest : ArgumentList),
    numel dims = 3%nat ->
    DataHash_v2_core (o :: outs) (mkArray UINT8 dims [x61; x62; x63] :: rest)
    = inr (createScalar_uint64 0x44BC2CF5AD770999 :: outs).
Proof.
  assert (H : XXHash.XXH64 [x61; x62; x63] 0 = 0x44BC2CF5AD770999)
    by (vm_compute; reflexivity).
  split; [exact H |].
  intros o outs dims rest Hn. unfold DataHash_v2_core.
  rewrite operator_call_uint8, Hn. simpl take. rewrite H. reflexivity.
Qed.

Lemma abc_known_answer_witness :
  DataHash_v2_core [mkArray DOUBLE [0; 0]%nat tt]
                   [mkArray UINT8 [1; 3]%nat [x61; x62; x63]]
  = inr [createScalar_uint64 0x44BC2CF5AD770999].
Proof.
  apply (proj2 abc_known_answer (mkArray DOUBLE [0; 0]%nat tt) [] [1; 3]%nat []).
  reflexivity.
Defined.

(** C4: with an argument supplied and an output slot to fill, the call
    fails with [InvalidInput] if and only if the argument is not a
    [uint8] array; on every [uint8] array, the empty one included, it
    succeeds and raises no error. *)
Theorem invalid_input_iff_not_uint8 (XXH64 : list byte -> Z -> Z)
    (o : Array) (outs : ArgumentList) (a : Array) (rest : ArgumentList) :
  (operator_call XXH64 (o :: outs) (a :: rest) = inl InvalidInput
   <-> getType a <> UINT8) /\
  (getType a = UINT8 ->
   exists h : Z,
     operator_call XXH64 (o :: outs) (a :: rest)
     = inr (createScalar_uint64 h :: outs)).
Proof.
  split; [split |].
  - intros Hfail Hty. destruct a as [ty dims buf]. simpl in Hty. subst ty.
    rewrite operator_call_uint8 in Hfail. discriminate Hfail.
  - apply operator_call_not_uint8.
  - intros Hty. destruct a as [ty dims buf]. simpl in Hty. subst ty.
    eexists. apply operator_call_uint8.
Qed.

Lemma invalid_input_iff_not_uint8_witness :
  DataHash_v2_core [mkArray DOUBLE [0; 0]%nat tt]
                   [mkArray DOUBLE [1; 3]%nat tt] = inl InvalidInput /\
  exists h : Z,
    DataHash_v2_core [mkArray DOUBLE [0; 0]%nat tt] [mkArray UINT8 [0; 0]%nat []]
    = inr [createScalar_uint64 h].
Proof.
  split.
  - apply (proj1 (invalid_input_iff_not_uint8 XXHash.XXH64
                    (mkArray DOUBLE [0; 0]%nat tt) []
                    (mkArray DOUBLE [1; 3]%nat tt) [])).
    discriminate.
  - apply (proj2 (invalid_input_iff_not_uint8 XXHash.XXH64
                    (mkArray DOUBLE [0; 0]%nat tt) []
                    (mkArray UINT8 [0; 0]%nat []) [])).
    reflexivity.
Defined.

(** C6: the returned hash is a function of the buffer contents alone:
    two calls on byte-for-byte identical buffers return the same value,
    whatever the shapes of the arrays, the other arguments and the
    earlier contents of the output slots. *)
Theorem hash_deterministic (XXH64 : list byte -> Z -> Z)
    (o1 o2 : Array) (outs1 outs2 : ArgumentList) (d1 d2 : list nat)
    (b1 b2 : list byte) (rest1 rest2 : ArgumentList) :
  well_formed d1 b1 -> well_formed d2 b2 -> b1 = b2 ->
  returned (operator_call XXH64 (o1 :: outs1) (mkArray UINT8 d1 b1 :: rest1))
  = returned (operator_call XXH64 (o2 :: outs2) (mkArray UINT8 d2 b2 :: rest2)).
Proof.
  intros H1 H2 Hb.
  rewrite !operator_call_uint8.
  rewrite (take_well_formed d1 b1 H1), (take_well_formed d2 b2 H2).
  simpl. rewrite Hb. reflexivity.
Qed.

Lemma hash_deterministic_witness :
  returned (DataHash_v2_core [mkArray DOUBLE [0; 0]%nat tt]
                             [mkArray UINT8 [1; 3]%nat abc])
  = returned (DataHash_v2_core [mkArray UINT64 [1; 1]%nat [7]; mkArray DOUBLE [0; 0]%nat tt]
                               [mkArray UINT8 [3; 1]%nat abc; mkArray DOUBLE [0; 0]%nat tt]).
Proof.
  apply (hash_deterministic XXHash.XXH64
           (mkArray DOUBLE [0; 0]%nat tt) (mkArray UINT64 [1; 1]%nat [7])
           [] [mkArray DOUBLE [0; 0]%nat tt]
           [1; 3]%nat [3; 1]%nat abc abc
           [] [mkArray DOUBLE [0; 0]%nat tt]);
    reflexivity.
Defined.

(** C7: the value handed back is the full 64-bit digest: for a hash
    function whose results are [XXH64_hash_t] values (unsigned, 64 bits),
    the output is a 1-by-1 [uint64] array whose single element is
    [XXH64(data, 0)] itself, a value in the unsigned range [0, 2^64),
    with no narrowing and no signed reading in between. *)
Theorem result_full_uint64 (XXH64 : list byte -> Z -> Z)
    (o : Array) (outs : ArgumentList) (dims : list nat) (data : list byte)
    (rest : ArgumentList) :
  (forall input seed, U64.in_range (XXH64 input seed)) ->
  well_formed dims data ->
  exists h : Z,
    returned (operator_call XXH64 (o :: outs) (mkArray UINT8 dims data :: rest))
    = Some (mkArray UINT64 [1; 1]%nat [h]) /\
    h = XXH64 data 0 /\
    0 <= h < 2 ^ 64.
Proof.
  intros Hty Hwf. exists (XXH64 data 0).
  rewrite operator_call_uint8, (take_well_formed dims data Hwf).
  split; [reflexivity |]. split; [reflexivity |].
  apply Hty.
Qed.

Lemma result_full_uint64_witness :
  exists h : Z,
    returned (DataHash_v2_core [mkArray DOUBLE [0; 0]%nat tt]
                               [mkArray UINT8 [1; 3]%nat abc])
    = Some (mkArray UINT64 [1; 1]%nat [h]) /\
    h = XXHash.XXH64 abc 0 /\
    0 <= h < 2 ^ 64.
Proof.
  apply (result_full_uint64 XXHash.XXH64
           (mkArray DOUBLE [0; 0]%nat tt) [] [1; 3]%nat abc []).
  - exact XXH64_in_range.
  - reflexivity.
Defined.

(** C8: for every finite byte sequence the call terminates and returns,
    with no blocking, I/O or nonterminating path.  Run as a computation
    whose loops test their own conditions and which could raise any host
    event, the call on a well-formed [uint8] array is, up to finitely
    many silent steps, the plain return of the digest of exactly its
    bytes: every loop of the hash function stops and no event is raised
    on the way. *)
Theorem call_halts_without_events (E : Type -> Type)
    (o : Array) (outs : ArgumentList) (dims : list nat) (data : list byte)
    (rest : ArgumentList) :
  well_formed dims data ->
  DataHash_v2_core_run E (o :: outs) (mkArray UINT8 dims data :: rest)
  ≈ Ret (inr (createScalar_uint64 (XXHash.XXH64 data 0) :: outs)).
Proof.
  intros Hwf. rewrite DataHash_v2_core_run_halts.
  unfold DataHash_v2_core.
  rewrite operator_call_uint8, (take_well_formed dims data Hwf).
  reflexivity.
Qed.

Lemma call_halts_without_events_witness :
  DataHash_v2_core_run void1 [mkArray DOUBLE [0; 0]%nat tt]
                       [mkArray UINT8 [1; 3]%nat abc]
  ≈ Ret (inr [createScalar_uint64 (XXHash.XXH64 abc 0)]).
Proof.
  apply (call_halts_without_events void1
           (mkArray DOUBLE [0; 0]%nat tt) [] [1; 3]%nat abc []).
  reflexivity.
Defined.

(** C9: only the first positional argument is read: two calls whose
    first arguments are the same give the same result (the same hash, or
    the same error), whatever further arguments follow. *)
Theorem extra_arguments_ignored (XXH64 : list byte -> Z -> Z)
    (outs : ArgumentList) (a : Array) (rest1 rest2 : ArgumentList) :
  operator_call XXH64 outs (a :: rest1) = operator_call XXH64 outs (a :: rest2).
Proof. reflexivity. Qed.

(** C10: the hash does not see the shape: two well-formed [uint8] arrays
    with the same elements in the same linear order, such as an N-by-M
    array and its N*M-by-1 reshape, give the same result. *)
Theorem shape_insensitive (XXH64 : list byte -> Z -> Z)
    (outs : ArgumentList) (d1 d2 : list nat) (data : list byte)
    (rest : ArgumentList) :
  well_formed d1 data -> well_formed d2 data ->
  operator_call XXH64 outs (mkArray UINT8 d1 data :: rest)
  = operator_call XXH64 outs (mkArray UINT8 d2 data :: rest).
Proof.
  unfold well_formed. intros H1 H2.
  unfold operator_call. simpl. unfold getNumberOfElements. simpl.
  rewrite <- H1, <- H2. reflexivity.
Qed.

Lemma shape_insensitive_witness :
  DataHash_v2_core [mkArray DOUBLE [0; 0]%nat tt]
                   [mkArray UINT8 [2; 3]%nat [x01; x02; x03; x04; x05; x06]]
  = DataHash_v2_core [mkArray DOUBLE [0; 0]%nat tt]
                     [mkArray UINT8 [6; 1]%nat [x01; x02; x03; x04; x05; x06]].
Proof.
  apply (shape_insensitive XXHash.XXH64 [mkArray DOUBLE [0; 0]%nat tt]
           [2; 3]%nat [6; 1]%nat [x01; x02; x03; x04; x05; x06] []);
    reflexivity.
Defined.

(** ** Further properties of the call *)

(** A call that returns has found a [uint8] array in [inputs[0]] and a
    slot in [outputs[0]], and has replaced that slot by the scalar. *)
Lemma operator_call_success_inv (XXH64 : list byte -> Z -> Z)
    (outs inputs outs' : ArgumentList) :
  operator_call XXH64 outs inputs = inr outs' ->
  exists (o : Array) (os : ArgumentList) (dims : list nat) (data : list byte)
         (rest : ArgumentList),
    outs = o :: os /\
    inputs = mkArray UINT8 dims data :: rest /\
    outs' = createScalar_uint64 (XXH64 (take (numel dims) data) 0) :: os.
Proof.
  intros Hcall.
  destruct inputs as [| [ty dims buf] rest]; [discriminate Hcall |].
  destruct ty; try discriminate Hcall.
  destruct outs as [| o os]; [discriminate Hcall |].
  rewrite operator_call_uint8 in Hcall. injection Hcall as <-.
  exists o, os, dims, buf, rest. repeat split.
Qed.

Lemma numel_zero_dimension (dims : list nat) : 0%nat ∈ dims -> numel dims = 0%nat.
Proof.
  induction dims as [| d dims IH]; intros Hin.
  - inversion Hin.
  - apply elem_of_cons in Hin. unfold numel in *. simpl.
    destruct Hin as [<- | Hin]; [reflexivity |].
    rewrite (IH Hin). lia.
Qed.

(** X1: [outputs[0] = mathash] is the only write of the call: when it
    returns, the output list has the length it had, slot 0 holds a 1-by-1
    [uint64] array, and every other slot holds what it held before (with
    several outputs requested, only the first is ever filled). *)
Theorem only_first_output_written (XXH64 : list byte -> Z -> Z)
    (outs inputs outs' : ArgumentList) :
  operator_call XXH64 outs inputs = inr outs' ->
  length outs' = length outs /\
  (exists h : Z, outs' !! 0%nat = Some (mkArray UINT64 [1; 1]%nat [h])) /\
  (forall i : nat, i <> 0%nat -> outs' !! i = outs !! i).
Proof.
  intros Hcall.
  destruct (operator_call_success_inv XXH64 outs inputs outs' Hcall)
    as (o & os & dims & data & rest & -> & _ & ->).
  split; [reflexivity |]. split.
  - eexists. reflexivity.
  - intros [| i] Hi; [contradiction | reflexivity].
Qed.

Lemma only_first_output_written_witness :
  let outs := [mkArray DOUBLE [0; 0]%nat tt; mkArray UINT8 [1; 3]%nat abc] in
  let outs' := [createScalar_uint64 0x44BC2CF5AD770999; mkArray UINT8 [1; 3]%nat abc] in
  length outs' = length outs /\
  (exists h : Z, outs' !! 0%nat = Some (mkArray UINT64 [1; 1]%nat [h])) /\
  (forall i : nat, i <> 0%nat -> outs' !! i = outs !! i).
Proof.
  apply (only_first_output_written XXHash.XXH64
           [mkArray DOUBLE [0; 0]%nat tt; mkArray UINT8 [1; 3]%nat abc]
           [mkArray UINT8 [1; 3]%nat abc]).
  vm_compute. reflexivity.
Defined.

(** X2: the call does not compose with itself: what it returns is a
    [uint64] array, which the conversion to [TypedArray<uint8_t>] refuses.
    Passing the outputs of a call that returned as the arguments of a
    second call raises [InvalidInput], whatever the second call's
    outputs. *)
Theorem result_cannot_be_rehashed (XXH64 : list byte -> Z -> Z)
    (outs inputs outs' outs2 : ArgumentList) :
  operator_call XXH64 outs inputs = inr outs' ->
  operator_call XXH64 outs2 outs' = inl InvalidInput.
Proof.
  intros Hcall.
  destruct (operator_call_success_inv XXH64 outs inputs outs' Hcall)
    as (o & os & dims & data & rest & _ & _ & ->).
  apply operator_call_not_uint8. discriminate.
Qed.

Lemma result_cannot_be_rehashed_witness :
  DataHash_v2_core [mkArray DOUBLE [0; 0]%nat tt]
                   [createScalar_uint64 0x44BC2CF5AD770999]
  = inl InvalidInput.
Proof.
  apply (result_cannot_be_rehashed XXHash.XXH64
           [mkArray DOUBLE [0; 0]%nat tt] [mkArray UINT8 [1; 3]%nat abc]
           [createScalar_uint64 0x44BC2CF5AD770999]
           [mkArray DOUBLE [0; 0]%nat tt]).
  vm_compute. reflexivity.
Defined.

(** X3: an array with a zero among its dimensions has
    [getNumberOfElements() = 0], so the hash function is called on no
    bytes at all: every empty shape (0-by-0, 0-by-5, 3-by-0-by-2, ...)
    returns the digest of the empty input. *)
Theorem zero_dimension_hashes_nothing (XXH64 : list byte -> Z -> Z)
    (o : Array) (outs : ArgumentList) (dims : list nat) (data : list byte)
    (rest : ArgumentList) :
  0%nat ∈ dims ->
  operator_call XXH64 (o :: outs) (mkArray UINT8 dims data :: rest)
  = inr (createScalar_uint64 (XXH64 [] 0) :: outs).
Proof.
  intros Hz. rewrite operator_call_uint8.
  rewrite (numel_zero_dimension dims Hz). reflexivity.
Qed.

Lemma zero_dimension_hashes_nothing_witness :
  DataHash_v2_core [mkArray DOUBLE [0; 0]%nat tt]
                   [mkArray UINT8 [3; 0; 2]%nat []]
  = inr [createScalar_uint64 (XXHash.XXH64 [] 0)].
Proof.
  apply (zero_dimension_hashes_nothing XXHash.XXH64
           (mkArray DOUBLE [0; 0]%nat tt) [] [3; 0; 2]%nat [] []).
  apply (list_elem_of_lookup_2 _ 1%nat). reflexivity.
Defined.

(** X4: a call overwrites, it does not accumulate: running it again on
    the same arguments, with the outputs of the first run as its output
    list, returns that list unchanged. *)
Theorem call_idempotent_on_outputs (XXH64 : list byte -> Z -> Z)
    (outs inputs outs' : ArgumentList) :
  operator_call XXH64 outs inputs = inr outs' ->
  operator_call XXH64 outs' inputs = inr outs'.
Proof.
  intros Hcall.
  destruct (operator_call_success_inv XXH64 outs inputs outs' Hcall)
    as (o & os & dims & data & rest & _ & -> & ->).
  apply operator_call_uint8.
Qed.

Lemma call_idempotent_on_outputs_witness :
  DataHash_v2_core [createScalar_uint64 0x44BC2CF5AD770999]
                   [mkArray UINT8 [1; 3]%nat abc]
  = inr [createScalar_uint64 0x44BC2CF5AD770999].
Proof.
  apply (call_idempotent_on_outputs XXHash.XXH64
           [mkArray DOUBLE [0; 0]%nat tt] [mkArray UINT8 [1; 3]%nat abc]
           [createScalar_uint64 0x44BC2CF5AD770999]).
  vm_compute. reflexivity.
Defined.
